(** * class_loader: the reference-counted ClassLoader handle (src/class_loader.cpp)

    Shallow embedding of [ClassLoader] as explicit state passing in a small
    state-and-exception monad.  The handle's counters, the two mutexes held by
    the running thread, the process-wide diagnostic flag and the state of the
    [class_loader::impl] registry live in one [World].  The registry is an
    interface ([RegistryOps]): every delegation the handle makes to it is also
    recorded in [w_calls], so "the registry was not called" is observable. *)

From Stdlib Require Import String ZArith List Lia Bool.
Import ListNotations.
Open Scope Z_scope.
Open Scope string_scope.
Open Scope list_scope.

(** Errors that can escape [class_loader::impl::loadLibrary] / [unloadLibrary]
    (library load / unload exceptions). *)
Inductive Error : Type :=
| LibraryLoadException (path : string)
| LibraryUnloadException (path : string).

(** The delegations from a handle to [class_loader::impl]; the [nat] is the
    handle's [this] pointer. *)
Inductive RegCall : Type :=
| CallLoadLibrary (path : string) (this : nat)
| CallUnloadLibrary (path : string) (this : nat).

(** [class_loader::impl::loadLibrary(path, this)] and
    [class_loader::impl::unloadLibrary(path, this)]: each may update the
    registry state and may raise ([Some e]). *)
Class RegistryOps (R : Type) := {
  impl_loadLibrary : string -> nat -> R -> R * option Error;
  impl_unloadLibrary : string -> nat -> R -> R * option Error
}.

(** [INT_MAX] of the 32-bit [int] that holds [load_ref_count_]. *)
Definition INT_MAX : Z := 2147483647.

(** The data members of [class ClassLoader]; [self] stands for [this].
    The counters are the C++ [int] members read as integers; the model does
    not wrap them, so it agrees with the code as long as [++load_ref_count_]
    is never applied at [INT_MAX] (a signed overflow in C++). *)
Record ClassLoader : Type := mkClassLoader {
  self : nat;
  ondemand_load_unload_ : bool;
  library_path_ : string;
  load_ref_count_ : Z;
  plugin_ref_count_ : Z
}.

(** Everything the member functions read or write. *)
Record World (R : Type) : Type := mkWorld {
  w_loader : ClassLoader;
  (** recursion depth of [load_ref_count_mutex_] held by the running thread *)
  w_load_lock : nat;
  (** [plugin_ref_count_mutex_] held by the running thread *)
  w_plugin_lock : bool;
  (** [ClassLoader::has_unmananged_instance_been_created_] *)
  w_unmanaged : bool;
  w_reg : R;
  w_calls : list RegCall
}.
Arguments mkWorld {R}.
Arguments w_loader {R}.
Arguments w_load_lock {R}.
Arguments w_plugin_lock {R}.
Arguments w_unmanaged {R}.
Arguments w_reg {R}.
Arguments w_calls {R}.

(** Outcome of a member function: a normal return or a propagating exception. *)
Inductive outcome (A : Type) : Type :=
| Ret (a : A)
| Raise (e : Error).
Arguments Ret {A}.
Arguments Raise {A}.

Section Handle.
Context {R : Type} `{RegistryOps R}.

Definition M (A : Type) : Type := World R -> outcome A * World R.

Definition ret {A} (a : A) : M A := fun w => (Ret a, w).

Definition bind {A B} (m : M A) (k : A -> M B) : M B := fun w =>
  match m w with
  | (Ret a, w') => k a w'
  | (Raise e, w') => (Raise e, w')
  end.

Definition throw {A} (e : Error) : M A := fun w => (Raise e, w).

(** [try { m } catch (...) { h }] *)
Definition try_catch {A} (m : M A) (h : Error -> M A) : M A := fun w =>
  match m w with
  | (Ret a, w') => (Ret a, w')
  | (Raise e, w') => h e w'
  end.

Local Notation "x <- m ;; k" := (bind m (fun x => k))
  (at level 61, m at next level, right associativity).
Local Notation "m ;;; k" := (bind m (fun _ => k))
  (at level 61, right associativity).

(** Field updates. *)
Definition set_loader (l : ClassLoader) (w : World R) : World R :=
  mkWorld l (w_load_lock w) (w_plugin_lock w) (w_unmanaged w) (w_reg w) (w_calls w).
Definition set_load_lock (n : nat) (w : World R) : World R :=
  mkWorld (w_loader w) n (w_plugin_lock w) (w_unmanaged w) (w_reg w) (w_calls w).
Definition set_plugin_lock (b : bool) (w : World R) : World R :=
  mkWorld (w_loader w) (w_load_lock w) b (w_unmanaged w) (w_reg w) (w_calls w).
Definition set_unmanaged (b : bool) (w : World R) : World R :=
  mkWorld (w_loader w) (w_load_lock w) (w_plugin_lock w) b (w_reg w) (w_calls w).
Definition set_reg_call (r : R) (c : RegCall) (w : World R) : World R :=
  mkWorld (w_loader w) (w_load_lock w) (w_plugin_lock w) (w_unmanaged w) r
    (w_calls w ++ [c]).
Definition with_load_ref_count (c : Z) (l : ClassLoader) : ClassLoader :=
  mkClassLoader (self l) (ondemand_load_unload_ l) (library_path_ l) c
    (plugin_ref_count_ l).

Definition get_loader : M ClassLoader := fun w => (Ret (w_loader w), w).
Definition put_loader (l : ClassLoader) : M unit := fun w => (Ret tt, set_loader l w).
Definition get_load_ref_count : M Z := l <- get_loader ;; ret (load_ref_count_ l).
Definition set_load_ref_count (c : Z) : M unit :=
  l <- get_loader ;; put_loader (with_load_ref_count c l).

(** [std::lock_guard<std::recursive_mutex>] on [load_ref_count_mutex_]: the
    lock is taken around [m] and released on every exit of the scope, normal
    or exceptional. *)
Definition lock_guard_load {A} (m : M A) : M A := fun w =>
  let '(o, w') := m (set_load_lock (S (w_load_lock w)) w) in
  (o, set_load_lock (pred (w_load_lock w')) w').

Definition plugin_ref_count_mutex_lock : M unit := fun w =>
  (Ret tt, set_plugin_lock true w).
Definition plugin_ref_count_mutex_unlock : M unit := fun w =>
  (Ret tt, set_plugin_lock false w).

(** The registry delegations, recorded in [w_calls]. *)
Definition call_impl_loadLibrary (path : string) (this : nat) : M unit := fun w =>
  let '(r', oe) := impl_loadLibrary path this (w_reg w) in
  let w' := set_reg_call r' (CallLoadLibrary path this) w in
  match oe with
  | None => (Ret tt, w')
  | Some e => (Raise e, w')
  end.
Definition call_impl_unloadLibrary (path : string) (this : nat) : M unit := fun w =>
  let '(r', oe) := impl_unloadLibrary path this (w_reg w) in
  let w' := set_reg_call r' (CallUnloadLibrary path this) w in
  match oe with
  | None => (Ret tt, w')
  | Some e => (Raise e, w')
  end.

(** ** Member functions *)

Definition hasUnmanagedInstanceBeenCreated : M bool := fun w =>
  (Ret (w_unmanaged w), w).

Definition setUnmanagedInstanceBeenCreated (state : bool) : M unit := fun w =>
  (Ret tt, set_unmanaged state w).

Definition getLibraryPath : M string := l <- get_loader ;; ret (library_path_ l).

Definition isOnDemandLoadUnloadEnabled : M bool :=
  l <- get_loader ;; ret (ondemand_load_unload_ l).

Definition loadLibrary : M unit :=
  p <- getLibraryPath ;;
  if String.eqb p "" then ret tt
  else lock_guard_load (
    c <- get_load_ref_count ;;
    set_load_ref_count (c + 1) ;;;
    l <- get_loader ;;
    call_impl_loadLibrary p (self l)).

Definition unloadLibraryInternal (lock_plugin_ref_count : bool) : M Z :=
  lock_guard_load (
    (if lock_plugin_ref_count then plugin_ref_count_mutex_lock else ret tt) ;;;
    try_catch (
      l <- get_loader ;;
      if Z.gtb (plugin_ref_count_ l) 0 then
        (* CONSOLE_BRIDGE_logWarn(...): the library will NOT be unloaded *)
        ret tt
      else
        set_load_ref_count (load_ref_count_ l - 1) ;;;
        c <- get_load_ref_count ;;
        if Z.eqb c 0 then
          (p <- getLibraryPath ;; call_impl_unloadLibrary p (self l))
        else if Z.ltb c 0 then set_load_ref_count 0
        else ret tt)
      (fun e =>
         (if lock_plugin_ref_count then plugin_ref_count_mutex_unlock else ret tt) ;;;
         throw e) ;;;
    (if lock_plugin_ref_count then plugin_ref_count_mutex_unlock else ret tt) ;;;
    get_load_ref_count).

Definition unloadLibrary : M Z :=
  p <- getLibraryPath ;;
  if String.eqb p "" then ret 0 else unloadLibraryInternal true.

(** [ClassLoader::ClassLoader(library_path, ondemand_load_unload)] for the
    object at address [this]. *)
Definition ClassLoader_ctor (this : nat) (library_path : string)
    (ondemand_load_unload : bool) : M unit :=
  put_loader (mkClassLoader this ondemand_load_unload library_path 0 0) ;;;
  od <- isOnDemandLoadUnloadEnabled ;;
  if negb od then loadLibrary else ret tt.

(** [ClassLoader::~ClassLoader()].  The destructor is implicitly
    [noexcept]: an exception from [unloadLibrary] would end the process in
    [std::terminate]; the model lets it propagate instead. *)
Definition ClassLoader_dtor : M unit := _ <- unloadLibrary ;; ret tt.

(** ** Sequences of public calls on one handle.  A call that raises is
    caught by the caller, who goes on with the state the call left. *)
Inductive Op : Type := OpLoad | OpUnload | OpDestroy.

Definition step (op : Op) (w : World R) : World R :=
  match op with
  | OpLoad => snd (loadLibrary w)
  | OpUnload => snd (unloadLibrary w)
  | OpDestroy => snd (ClassLoader_dtor w)
  end.

Definition run (ops : list Op) (w : World R) : World R :=
  fold_left (fun w op => step op w) ops w.

Definition count (w : World R) : Z := load_ref_count_ (w_loader w).

End Handle.

(** The static initialiser of [has_unmananged_instance_been_created_]. *)
Definition has_unmananged_instance_been_created_init : bool := false.

(** ** The library registry behind [class_loader::impl]

    Modelled from the spec: [class_loader::impl::loadLibrary] and
    [class_loader::impl::unloadLibrary] are not in src/.  Section 4.2 of the
    spec: [acquire] adds the handle to the path's owner set and opens the
    module through the dynamic-module primitive when the set was empty;
    [release] removes the handle and closes the module when the set becomes
    empty.  The primitive's calls are logged in [prim_log]; the paths in
    [open_fails] / [close_fails] make the primitive fail. *)
Module LibraryRegistry.

Inductive PrimEvent : Type :=
| PrimOpen (path : string)
| PrimClose (path : string).

Record Registry : Type := mkRegistry {
  owners : list (string * list nat);
  prim_log : list PrimEvent;
  open_fails : list string;
  close_fails : list string
}.

Fixpoint owners_of (p : string) (os : list (string * list nat)) : list nat :=
  match os with
  | [] => []
  | (q, hs) :: t => if String.eqb p q then hs else owners_of p t
  end.

Fixpoint set_owners (p : string) (hs : list nat) (os : list (string * list nat))
    : list (string * list nat) :=
  match os with
  | [] => [(p, hs)]
  | (q, hs') :: t => if String.eqb p q then (p, hs) :: t else (q, hs') :: set_owners p hs t
  end.

Definition update (p : string) (hs : list nat) (ev : list PrimEvent) (r : Registry)
    : Registry :=
  mkRegistry (set_owners p hs (owners r)) (prim_log r ++ ev) (open_fails r) (close_fails r).

(** Modelled from the spec: [Registry.acquire(path, handle)]. *)
Definition acquire (p : string) (h : nat) (r : Registry) : Registry * option Error :=
  match owners_of p (owners r) with
  | [] =>
      if existsb (String.eqb p) (open_fails r)
      then (update p [] [PrimOpen p] r, Some (LibraryLoadException p))
      else (update p [h] [PrimOpen p] r, None)
  | hs =>
      (update p (if existsb (Nat.eqb h) hs then hs else hs ++ [h]) [] r, None)
  end.

(** Modelled from the spec: [Registry.release(path, handle)]. *)
Definition release (p : string) (h : nat) (r : Registry) : Registry * option Error :=
  let hs := owners_of p (owners r) in
  let hs' := filter (fun x => negb (Nat.eqb x h)) hs in
  match hs' with
  | [] =>
      if existsb (Nat.eqb h) hs then
        (update p [] [PrimClose p] r,
         if existsb (String.eqb p) (close_fails r)
         then Some (LibraryUnloadException p) else None)
      else (r, None)
  | _ => (update p hs' [] r, None)
  end.

#[export] Instance registry_ops : RegistryOps Registry :=
  { impl_loadLibrary := acquire; impl_unloadLibrary := release }.

Definition empty_registry : Registry := mkRegistry [] [] [] [].

(** A process with one handle at address [1] bound to [path]. *)
Definition world_of (path : string) (ondemand : bool) (load_ref plugin_ref : Z)
    (r : Registry) : World Registry :=
  mkWorld (mkClassLoader 1 ondemand path load_ref plugin_ref) 0 false false r [].

(** Concrete processes: one handle at address [1] on ["libfoo"]. *)
Definition libfoo_owned (close_fails : list string) : Registry :=
  mkRegistry [("libfoo", [1%nat])] [PrimOpen "libfoo"] [] close_fails.
Definition fresh_world : World Registry := world_of "libfoo" true 0 0 empty_registry.
Definition loaded_world : World Registry := world_of "libfoo" true 1 0 (libfoo_owned []).
Definition busy_world : World Registry := world_of "libfoo" true 2 1 (libfoo_owned []).
Definition failing_close_world : World Registry :=
  world_of "libfoo" true 1 0 (libfoo_owned ["libfoo"]).
Definition static_world : World Registry := world_of "" false 0 0 empty_registry.
Definition twice_loaded_world : World Registry := world_of "libfoo" true 2 0 (libfoo_owned []).
Definition failing_open_world : World Registry :=
  world_of "libfoo" true 0 0 (mkRegistry [] [] ["libfoo"] []).

End LibraryRegistry.

(** ** Counting calls in a sequence (the destructor counts as an unload). *)
Definition is_load (op : Op) : bool :=
  match op with OpLoad => true | _ => false end.

Definition n_loads (ops : list Op) : Z := Z.of_nat (length (filter is_load ops)).
Definition n_unloads (ops : list Op) : Z :=
  Z.of_nat (length (filter (fun op => negb (is_load op)) ops)).

(** The load count after one public call, as read off the code of
    [loadLibrary] and [unloadLibraryInternal]. *)
Definition next_count (op : Op) (l : ClassLoader) : Z :=
  let c := load_ref_count_ l in
  if String.eqb (library_path_ l) "" then c
  else match op with
       | OpLoad => c + 1
       | _ => if Z.gtb (plugin_ref_count_ l) 0 then c else Z.max 0 (c - 1)
       end.

Section Lemmas.
Context {R : Type} `{RegistryOps R}.

Definition unload_outcome (b : bool) (w : World R) : Prop :=
  let l := w_loader w in
  let c := load_ref_count_ l in
  let c' := if Z.gtb (plugin_ref_count_ l) 0 then c else Z.max 0 (c - 1) in
  let '(o, w') := unloadLibraryInternal b w in
  w_loader w' = with_load_ref_count c' l /\
  w_load_lock w' = w_load_lock w /\
  w_plugin_lock w' = (if b then false else w_plugin_lock w) /\
  w_unmanaged w' = w_unmanaged w /\
  (if Z.gtb (plugin_ref_count_ l) 0 || negb (Z.eqb c 1) then
     w_reg w' = w_reg w /\ w_calls w' = w_calls w /\ o = Ret c'
   else
     let '(r', oe) := impl_unloadLibrary (library_path_ l) (self l) (w_reg w) in
     w_reg w' = r' /\
     w_calls w' = w_calls w ++ [CallUnloadLibrary (library_path_ l) (self l)] /\
     o = match oe with None => Ret 0 | Some e => Raise e end).

Definition load_outcome (w : World R) : Prop :=
  let l := w_loader w in
  let '(o, w') := loadLibrary w in
  if String.eqb (library_path_ l) "" then o = Ret tt /\ w' = w
  else
    w_loader w' = with_load_ref_count (load_ref_count_ l + 1) l /\
    w_load_lock w' = w_load_lock w /\
    w_plugin_lock w' = w_plugin_lock w /\
    w_unmanaged w' = w_unmanaged w /\
    let '(r', oe) := impl_loadLibrary (library_path_ l) (self l) (w_reg w) in
    w_reg w' = r' /\
    w_calls w' = w_calls w ++ [CallLoadLibrary (library_path_ l) (self l)] /\
    o = match oe with None => Ret tt | Some e => Raise e end.

End Lemmas.

(** ** Library file names ([systemLibraryPrefix], [systemLibrarySuffix],
    [systemLibraryFormat]).  The preprocessor branches become a platform
    argument; on a platform that is none of Linux, macOS and Windows the
    suffix is [Poco::SharedLibrary::suffix()], passed as [poco_suffix]. *)
Inductive Platform : Type := Linux | Apple | Windows | OtherPlatform.

Definition systemLibraryPrefix (pf : Platform) : string :=
  match pf with
  | Windows => ""
  | _ => "lib"
  end.

Definition systemLibrarySuffix (poco_suffix : string) (pf : Platform) : string :=
  match pf with
  | Linux => ".so"
  | Apple => ".dylib"
  | Windows => ".dll"
  | OtherPlatform => poco_suffix
  end.

Definition systemLibraryFormat (poco_suffix : string) (pf : Platform)
    (library_name : string) : string :=
  (systemLibraryPrefix pf ++ library_name ++ systemLibrarySuffix poco_suffix pf)%string.

(** A registry delegation made by the handle [this] about [path]. *)
Definition call_is_release (c : RegCall) : bool :=
  match c with CallUnloadLibrary _ _ => true | CallLoadLibrary _ _ => false end.
Definition call_about (path : string) (this : nat) (c : RegCall) : Prop :=
  c = CallLoadLibrary path this \/ c = CallUnloadLibrary path this.

(** * Proofs *)

Ltac unfold_handle :=
  unfold loadLibrary, unloadLibrary, unloadLibraryInternal, ClassLoader_dtor,
    ClassLoader_ctor, isOnDemandLoadUnloadEnabled, getLibraryPath,
    get_load_ref_count, set_load_ref_count, get_loader, put_loader,
    lock_guard_load, plugin_ref_count_mutex_lock, plugin_ref_count_mutex_unlock,
    try_catch, throw, bind, ret, call_impl_loadLibrary, call_impl_unloadLibrary,
    set_loader, set_load_lock, set_plugin_lock, set_reg_call, with_load_ref_count,
    count in *; cbn in *.

Ltac split_ifs :=
  repeat (cbn in *; match goal with
  | |- context [if ?b then _ else _] => let E := fresh "Eb" in destruct b eqn:E
  end);
  rewrite ?Z.eqb_eq, ?Z.eqb_neq, ?Z.ltb_lt, ?Z.ltb_ge, ?Z.gtb_ltb in *.

Ltac close_fields :=
  repeat split; try reflexivity; try (f_equal; lia); try lia; try discriminate;
  try (exfalso; lia).

Section Lemmas.
Context {R : Type} `{RegistryOps R}.

Lemma unloadLibraryInternal_outcome b (w : World R) : unload_outcome b w.
Proof.
  destruct w as [[s od p c pc] d pl u r cs].
  unfold unload_outcome; unfold_handle.
  destruct b; split_ifs;
  try (destruct (impl_unloadLibrary p s r) as [r' [e|]]; cbn);
  close_fields.
Qed.

Lemma loadLibrary_outcome (w : World R) : load_outcome w.
Proof.
  destruct w as [[s od p c pc] d pl u r cs].
  unfold load_outcome; unfold_handle.
  destruct (String.eqb p "") eqn:Ep; cbn; [split; reflexivity|].
  destruct (impl_loadLibrary p s r) as [r' [e|]]; cbn; close_fields.
Qed.

Lemma unloadLibrary_eq (w : World R) :
  unloadLibrary w =
  if String.eqb (library_path_ (w_loader w)) "" then (Ret 0, w)
  else unloadLibraryInternal true w.
Proof.
  destruct w as [[s od p c pc] d pl u r cs]; cbn.
  destruct (String.eqb p ""); reflexivity.
Qed.

Lemma ClassLoader_dtor_state (w : World R) :
  snd (ClassLoader_dtor w) = snd (unloadLibrary w).
Proof.
  unfold ClassLoader_dtor, bind, ret.
  destruct (unloadLibrary w) as [[a|e] w']; reflexivity.
Qed.

Lemma step_loader op (w : World R) :
  w_loader (step op w) = with_load_ref_count (next_count op (w_loader w)) (w_loader w).
Proof.
  assert (Hu : w_loader (snd (unloadLibrary w)) =
               with_load_ref_count (next_count OpUnload (w_loader w)) (w_loader w)).
  { rewrite unloadLibrary_eq. unfold next_count.
    destruct (String.eqb _ "") eqn:Ep.
    - destruct w as [[s od p c pc] d pl u r cs]; reflexivity.
    - pose proof (unloadLibraryInternal_outcome true w) as Ho.
      unfold unload_outcome in Ho.
      destruct (unloadLibraryInternal true w) as [o w']; cbn; apply Ho. }
  destruct op; cbn [step].
  - pose proof (loadLibrary_outcome w) as Ho. unfold load_outcome in Ho.
    unfold next_count.
    destruct (loadLibrary w) as [o w']; cbn.
    destruct (String.eqb _ "").
    + destruct Ho as [_ ->]. destruct w as [[s od p c pc] d pl u r cs]; reflexivity.
    + apply Ho.
  - exact Hu.
  - rewrite ClassLoader_dtor_state. exact Hu.
Qed.

Lemma step_count op (w : World R) : count (step op w) = next_count op (w_loader w).
Proof. unfold count. rewrite step_loader. reflexivity. Qed.

Lemma step_path op (w : World R) :
  library_path_ (w_loader (step op w)) = library_path_ (w_loader w).
Proof. rewrite step_loader. reflexivity. Qed.

Lemma step_plugin op (w : World R) :
  plugin_ref_count_ (w_loader (step op w)) = plugin_ref_count_ (w_loader w).
Proof. rewrite step_loader. reflexivity. Qed.

Lemma firstn_S_nth {A} (l : list A) n x :
  nth_error l n = Some x -> firstn (S n) l = firstn n l ++ [x].
Proof.
  revert n; induction l as [|y l IH]; intros [|n] Hn; cbn in *; try discriminate.
  - injection Hn as ->. reflexivity.
  - rewrite (IH n Hn). reflexivity.
Qed.

Lemma run_firstn_S ops n op (w : World R) :
  nth_error ops n = Some op ->
  run (firstn (S n) ops) w = step op (run (firstn n ops) w).
Proof.
  intro Hn. unfold run. rewrite (firstn_S_nth ops n op Hn), fold_left_app. reflexivity.
Qed.

Lemma run_cons op ops (w : World R) : run (op :: ops) w = run ops (step op w).
Proof. reflexivity. Qed.

Lemma run_path ops (w : World R) :
  library_path_ (w_loader (run ops w)) = library_path_ (w_loader w).
Proof.
  revert w; induction ops as [|op ops IH]; intro w; [reflexivity|].
  rewrite run_cons, IH. apply step_path.
Qed.

Lemma run_plugin ops (w : World R) :
  plugin_ref_count_ (w_loader (run ops w)) = plugin_ref_count_ (w_loader w).
Proof.
  revert w; induction ops as [|op ops IH]; intro w; [reflexivity|].
  rewrite run_cons, IH. apply step_plugin.
Qed.

End Lemmas.

Section Runs.
Context {R : Type} `{RegistryOps R}.

Lemma next_count_nonneg op l :
  0 <= load_ref_count_ l -> 0 <= next_count op l.
Proof. intro Hc. unfold next_count. destruct op; split_ifs; lia. Qed.

Lemma run_firstn_nonneg ops n (w : World R) :
  0 <= count w -> 0 <= count (run (firstn n ops) w).
Proof.
  revert n w; induction ops as [|op ops IH]; intros [|n] w Hc; cbn; try exact Hc.
  apply IH. rewrite step_count. now apply next_count_nonneg.
Qed.

Lemma run_count_empty_path ops (w : World R) :
  library_path_ (w_loader w) = "" -> count (run ops w) = count w.
Proof.
  revert w; induction ops as [|op ops IH]; intros w Hp; [reflexivity|].
  rewrite run_cons, IH.
  - rewrite step_count. unfold next_count. rewrite Hp. reflexivity.
  - now rewrite step_path.
Qed.

Lemma ClassLoader_ctor_eq this path od (w0 : World R) :
  ClassLoader_ctor this path od w0 =
  let w1 := set_loader (mkClassLoader this od path 0 0) w0 in
  if od then (Ret tt, w1) else loadLibrary w1.
Proof. destruct od; reflexivity. Qed.

Lemma n_loads_cons op ops :
  n_loads (op :: ops) = (if is_load op then 1 else 0) + n_loads ops.
Proof. unfold n_loads. destruct op; cbn [filter is_load length]; lia. Qed.

Lemma n_unloads_cons op ops :
  n_unloads (op :: ops) = (if is_load op then 0 else 1) + n_unloads ops.
Proof. unfold n_unloads. destruct op; cbn [filter is_load negb length]; lia. Qed.

Lemma n_counts_nonneg ops : 0 <= n_loads ops /\ 0 <= n_unloads ops.
Proof. unfold n_loads, n_unloads. lia. Qed.

Lemma n_loads_app a b : n_loads (a ++ b) = n_loads a + n_loads b.
Proof. unfold n_loads. rewrite filter_app, length_app. lia. Qed.

Lemma n_loads_firstn_le ops n : n_loads (firstn n ops) <= n_loads ops.
Proof.
  rewrite <- (firstn_skipn n ops) at 2. rewrite n_loads_app.
  pose proof (n_counts_nonneg (skipn n ops)). lia.
Qed.

Lemma run_count_le_loads ops (w : World R) :
  0 <= count w -> count (run ops w) <= count w + n_loads ops.
Proof.
  revert w; induction ops as [|op ops IH]; intros w Hc.
  - unfold n_loads. cbn. lia.
  - rewrite run_cons, n_loads_cons.
    assert (Hs : 0 <= count (step op w) <= count w + (if is_load op then 1 else 0)).
    { rewrite step_count. unfold next_count, count in *.
      destruct op; cbn [is_load]; split_ifs; lia. }
    pose proof (IH (step op w) (proj1 Hs)) as IH'.
    destruct op; cbn [is_load] in *; lia.
Qed.

(** With a bound path and no live plugin instance, the count follows
    [+1] per load and [max 0 (c - 1)] per unload. *)
Lemma run_count_bounds ops (w : World R) :
  library_path_ (w_loader w) <> "" ->
  plugin_ref_count_ (w_loader w) = 0 ->
  0 <= count w ->
  Z.max 0 (count w + n_loads ops - n_unloads ops) <= count (run ops w) /\
  ((forall n, n_unloads (firstn n ops) <= count w + n_loads (firstn n ops)) ->
   count (run ops w) = count w + n_loads ops - n_unloads ops).
Proof.
  revert w; induction ops as [|op ops IH]; intros w Hp Hpl Hc.
  - cbn. unfold n_loads, n_unloads; cbn. split; [lia|intros _; lia].
  - rewrite run_cons.
    assert (Hsc : count (step op w) =
                  if is_load op then count w + 1 else Z.max 0 (count w - 1)).
    { rewrite step_count. unfold next_count.
      apply String.eqb_neq in Hp. rewrite Hp, Hpl. destruct op; reflexivity. }
    destruct (IH (step op w)) as [IHa IHb].
    { now rewrite step_path. }
    { now rewrite step_plugin. }
    { rewrite Hsc. destruct op; cbn [is_load]; lia. }
    rewrite n_loads_cons, n_unloads_cons.
    split.
    + rewrite Hsc in IHa. destruct op; cbn [is_load] in *; lia.
    + intro Hpre.
      assert (H1 := Hpre 1%nat). cbn [firstn] in H1.
      rewrite n_loads_cons, n_unloads_cons in H1.
      unfold n_loads, n_unloads in H1. cbn in H1.
      rewrite IHb.
      * rewrite Hsc. destruct op; cbn [is_load] in *; lia.
      * intro n. specialize (Hpre (S n)). cbn [firstn] in Hpre.
        rewrite n_loads_cons, n_unloads_cons in Hpre.
        rewrite Hsc. destruct op; cbn [is_load] in *; lia.
Qed.

End Runs.

(** * Claims *)

Section Claims.
Context {R : Type} `{RegistryOps R}.

(** C1, up to the [int] overflow of [++load_ref_count_]: over any sequence
    of [loadLibrary] / [unloadLibrary] (and destructor) calls on one handle
    whose loads cannot push the count past [INT_MAX], [load_ref_count_]
    stays within [0 .. INT_MAX] at every call boundary, and each call
    changes it by +1, -1 or 0; it changes by 0 exactly when the path is
    empty, or the call is an unload refused because of live plugin instances
    or clamped at 0.  (Past [INT_MAX] the C++ increment overflows.) *)
Theorem load_ref_count_never_negative_unit_steps (ops : list Op) (w : World R)
    (Hnonneg : 0 <= count w) (Hbound : count w + n_loads ops <= INT_MAX) :
  (forall n, 0 <= count (run (firstn n ops) w) <= INT_MAX) /\
  (forall n op, nth_error ops n = Some op ->
     let w1 := run (firstn n ops) w in
     let d := count (step op w1) - count w1 in
     (d = 1 \/ d = -1 \/ d = 0) /\
     (d = 0 <-> library_path_ (w_loader w1) = "" \/
               (op <> OpLoad /\
                (0 < plugin_ref_count_ (w_loader w1) \/ count w1 = 0)))).
Proof.
  split.
  - intro n. split; [now apply run_firstn_nonneg|].
    pose proof (run_count_le_loads (firstn n ops) w Hnonneg).
    pose proof (n_loads_firstn_le ops n). lia.
  - intros n op _. cbv zeta.
    pose proof (run_firstn_nonneg ops n w Hnonneg) as Hc.
    set (w1 := run (firstn n ops) w) in *.
    rewrite step_count. unfold next_count. unfold count in *.
    destruct (String.eqb (library_path_ (w_loader w1)) "") eqn:Ep.
    + apply String.eqb_eq in Ep. split; [lia|]. split; [intros _; now left|lia].
    + apply String.eqb_neq in Ep.
      destruct op; split_ifs; split; try lia; split; intro Hd;
        try (right; split; [discriminate|lia]); try lia;
        destruct Hd as [Hd|[Hd Hd']]; try contradiction; try congruence; lia.
Qed.

(** C2: [unloadLibrary] on a handle with a bound path while
    [plugin_ref_count_ > 0] returns normally with the unchanged
    [load_ref_count_], and neither calls [class_loader::impl::unloadLibrary]
    nor touches the registry state. *)
Theorem unload_refused_while_plugins_alive (w : World R)
    (Hplugin : 0 < plugin_ref_count_ (w_loader w))
    (Hpath : library_path_ (w_loader w) <> "") :
  let '(o, w') := unloadLibrary w in
  o = Ret (count w) /\ count w' = count w /\
  w_reg w' = w_reg w /\ w_calls w' = w_calls w.
Proof.
  rewrite unloadLibrary_eq. apply String.eqb_neq in Hpath. rewrite Hpath.
  pose proof (unloadLibraryInternal_outcome true w) as Ho. unfold unload_outcome in Ho.
  destruct (unloadLibraryInternal true w) as [o w'].
  assert (Hg : Z.gtb (plugin_ref_count_ (w_loader w)) 0 = true) by (apply Z.gtb_lt; lia).
  rewrite Hg in Ho. cbn in Ho. destruct Ho as (Hl & _ & _ & _ & Hr & Hc & Ho).
  unfold count. rewrite Hl, Hr, Hc, Ho. destruct (w_loader w); auto.
Qed.

(** C4: with the empty path, [loadLibrary], [unloadLibrary] and the
    destructor leave the whole state unchanged ([unloadLibrary] returning 0),
    and construction with either [ondemand_load_unload] calls no registry
    function and leaves the registry state as it was. *)
Theorem empty_path_never_touches_registry (w : World R)
    (Hpath : library_path_ (w_loader w) = "") :
  loadLibrary w = (Ret tt, w) /\
  unloadLibrary w = (Ret 0, w) /\
  ClassLoader_dtor w = (Ret tt, w) /\
  (forall (this : nat) (od : bool) (w0 : World R),
     let '(o, w') := ClassLoader_ctor this "" od w0 in
     o = Ret tt /\ count w' = 0 /\ w_reg w' = w_reg w0 /\ w_calls w' = w_calls w0).
Proof.
  assert (Hl : forall w2 : World R,
             library_path_ (w_loader w2) = "" -> loadLibrary w2 = (Ret tt, w2)).
  { intros w2 Hp. pose proof (loadLibrary_outcome w2) as Ho. unfold load_outcome in Ho.
    rewrite Hp in Ho. destruct (loadLibrary w2) as [o w']. cbn in Ho.
    destruct Ho as [-> ->]. reflexivity. }
  assert (Hu : unloadLibrary w = (Ret 0, w)) by (rewrite unloadLibrary_eq, Hpath; reflexivity).
  split; [now apply Hl|]. split; [exact Hu|]. split.
  - unfold ClassLoader_dtor, bind. rewrite Hu. reflexivity.
  - intros this od w0. rewrite ClassLoader_ctor_eq. cbv zeta.
    destruct od.
    + repeat split.
    + rewrite Hl by reflexivity. repeat split.
Qed.

(** C5: [unloadLibraryInternal] with no live plugin instance sets
    [load_ref_count_] to [max 0 (load_ref_count_ - 1)] and calls
    [class_loader::impl::unloadLibrary(path, this)] exactly when the
    decrement yields 0; otherwise the registry is left alone. *)
Theorem unload_internal_decrements_and_releases_at_zero (b : bool) (w : World R)
    (Hplugin : plugin_ref_count_ (w_loader w) = 0)
    (Hpath : library_path_ (w_loader w) <> "") :
  let c := count w in
  let '(o, w') := unloadLibraryInternal b w in
  count w' = Z.max 0 (c - 1) /\
  w_calls w' = w_calls w ++
    (if Z.eqb (c - 1) 0
     then [CallUnloadLibrary (library_path_ (w_loader w)) (self (w_loader w))]
     else []) /\
  (c - 1 <> 0 -> w_reg w' = w_reg w /\ o = Ret (Z.max 0 (c - 1))).
Proof.
  cbv zeta.
  pose proof (unloadLibraryInternal_outcome b w) as Ho. unfold unload_outcome in Ho.
  destruct (unloadLibraryInternal b w) as [o w'].
  rewrite Hplugin in Ho. cbn [Z.gtb Z.compare orb] in Ho.
  unfold count in *.
  destruct Ho as (Hl & _ & _ & _ & Hrest). rewrite Hl. cbn [load_ref_count_ with_load_ref_count].
  destruct (Z.eqb (load_ref_count_ (w_loader w)) 1) eqn:E1; cbn [negb] in Hrest.
  - apply Z.eqb_eq in E1. rewrite E1. cbn.
    destruct (impl_unloadLibrary _ _ _) as [r' oe].
    destruct Hrest as (_ & Hc & _). split; [reflexivity|]. split; [exact Hc|lia].
  - apply Z.eqb_neq in E1.
    destruct Hrest as (Hr & Hc & Hoe).
    assert (E2 : Z.eqb (load_ref_count_ (w_loader w) - 1) 0 = false) by (apply Z.eqb_neq; lia).
    rewrite E2, app_nil_r. auto.
Qed.

(** C7: when [unloadLibraryInternal] delegates to the registry (no live
    plugin instance and the count reaching 0) and the registry's unload
    raises, the call raises that same exception; and whenever the call
    raises, the exception is the registry's own.  In both cases, by the time
    the exception reaches the caller, the [load_ref_count_mutex_] hold of
    this call is released (the recursion depth is back to its value before
    the call) and, when the call took [plugin_ref_count_mutex_], that mutex
    is released too. *)
Theorem unload_internal_error_releases_locks (b : bool) (w : World R) :
  let l := w_loader w in
  let '(o, w') := unloadLibraryInternal b w in
  (plugin_ref_count_ l <= 0 -> load_ref_count_ l = 1 ->
   forall e, snd (impl_unloadLibrary (library_path_ l) (self l) (w_reg w)) = Some e ->
   o = Raise e /\ w_load_lock w' = w_load_lock w /\
   w_plugin_lock w' = (if b then false else w_plugin_lock w)) /\
  (forall e, o = Raise e ->
   snd (impl_unloadLibrary (library_path_ l) (self l) (w_reg w)) = Some e /\
   w_load_lock w' = w_load_lock w /\
   w_plugin_lock w' = (if b then false else w_plugin_lock w)).
Proof.
  cbv zeta.
  pose proof (unloadLibraryInternal_outcome b w) as Ho. unfold unload_outcome in Ho.
  destruct (unloadLibraryInternal b w) as [o w'].
  destruct Ho as (_ & Hd & Hpl & _ & Hrest).
  split.
  - intros Hp Hc e He.
    assert (Hg : Z.gtb (plugin_ref_count_ (w_loader w)) 0 = false)
      by (rewrite Z.gtb_ltb; apply Z.ltb_ge; lia).
    rewrite Hg, Hc in Hrest. cbn [orb negb Z.eqb Pos.eqb] in Hrest.
    destruct (impl_unloadLibrary _ _ _) as [r' oe]. cbn in He. subst oe.
    destruct Hrest as (_ & _ & Ho). auto.
  - intros e Ho. split; [|auto].
    destruct (_ || _); [destruct Hrest as (_ & _ & Hret); congruence|].
    destruct (impl_unloadLibrary _ _ _) as [r' [e0|]]; destruct Hrest as (_ & _ & Hret);
      cbn; congruence.
Qed.

(** C9: [unloadLibrary] on a bound handle whose [load_ref_count_] and
    [plugin_ref_count_] are both 0 returns 0, keeps the count at 0 and calls
    no registry function. *)
Theorem unload_at_zero_is_noop (w : World R)
    (Hpath : library_path_ (w_loader w) <> "")
    (Hcount : count w = 0) (Hplugin : plugin_ref_count_ (w_loader w) = 0) :
  let '(o, w') := unloadLibrary w in
  o = Ret 0 /\ count w' = 0 /\ w_reg w' = w_reg w /\ w_calls w' = w_calls w.
Proof.
  rewrite unloadLibrary_eq. apply String.eqb_neq in Hpath as Hp. rewrite Hp.
  pose proof (unloadLibraryInternal_outcome true w) as Ho. unfold unload_outcome in Ho.
  destruct (unloadLibraryInternal true w) as [o w'].
  unfold count in *. rewrite Hplugin, Hcount in Ho. cbn in Ho.
  destruct Ho as (Hl & _ & _ & _ & Hr & Hc & Ho). rewrite Hl. auto.
Qed.

(** C10: for a handle constructed with the empty path, [load_ref_count_] is
    0 after construction and after every prefix of any sequence of public
    calls. *)
Theorem empty_path_load_ref_count_zero (this : nat) (od : bool) (w0 : World R)
    (ops : list Op) (n : nat) :
  count (run (firstn n ops) (snd (ClassLoader_ctor this "" od w0))) = 0.
Proof.
  rewrite ClassLoader_ctor_eq. cbv zeta.
  set (w1 := set_loader (mkClassLoader this od "" 0 0) w0).
  assert (Hw1 : snd (if od then (Ret tt, w1) else loadLibrary w1) = w1).
  { destruct od; [reflexivity|].
    pose proof (loadLibrary_outcome w1) as Ho. unfold load_outcome in Ho.
    destruct (loadLibrary w1) as [o w']. cbn in Ho. destruct Ho as [_ ->]. reflexivity. }
  rewrite Hw1, run_count_empty_path; reflexivity.
Qed.

(** C6: construction with [ondemand_load_unload == false] and a bound path
    issues one [loadLibrary]: [load_ref_count_] is 1 and exactly one call
    [class_loader::impl::loadLibrary(path, this)] is made (whose exception,
    if any, escapes the constructor); construction with
    [ondemand_load_unload == true] loads nothing, leaves [load_ref_count_]
    at 0 and the registry untouched. *)
Theorem ctor_loads_unless_on_demand (this : nat) (path : string) (w0 : World R)
    (Hpath : path <> "") :
  (let '(o, w') := ClassLoader_ctor this path false w0 in
   count w' = 1 /\ plugin_ref_count_ (w_loader w') = 0 /\
   w_calls w' = w_calls w0 ++ [CallLoadLibrary path this] /\
   w_reg w' = fst (impl_loadLibrary path this (w_reg w0)) /\
   o = match snd (impl_loadLibrary path this (w_reg w0)) with
       | None => Ret tt | Some e => Raise e end) /\
  (forall path' : string,
   let '(o, w') := ClassLoader_ctor this path' true w0 in
   o = Ret tt /\ count w' = 0 /\ w_reg w' = w_reg w0 /\ w_calls w' = w_calls w0).
Proof.
  split.
  - rewrite ClassLoader_ctor_eq. cbv zeta.
    set (w1 := set_loader (mkClassLoader this false path 0 0) w0).
    pose proof (loadLibrary_outcome w1) as Ho. unfold load_outcome in Ho.
    destruct (loadLibrary w1) as [o w'].
    apply String.eqb_neq in Hpath. cbn [w1 set_loader w_loader library_path_] in Ho.
    rewrite Hpath in Ho.
    destruct Ho as (Hl & _ & _ & _ & Hrest). cbn in Hrest.
    unfold count. rewrite Hl. cbn.
    destruct (impl_loadLibrary path this (w_reg w0)) as [r' oe].
    destruct Hrest as (Hr & Hc & Hoe). cbn. auto.
  - intro path'. rewrite ClassLoader_ctor_eq. cbn. auto.
Qed.

(** C8: the static [has_unmananged_instance_been_created_] starts false;
    after [setUnmanagedInstanceBeenCreated(b)],
    [hasUnmanagedInstanceBeenCreated()] returns [b], and nothing else in the
    state changes. *)
Theorem unmanaged_flag_roundtrip :
  has_unmananged_instance_been_created_init = false /\
  forall (b : bool) (w : World R),
    let '(o, w') := setUnmanagedInstanceBeenCreated b w in
    o = Ret tt /\ hasUnmanagedInstanceBeenCreated w' = (Ret b, w') /\
    w_loader w' = w_loader w /\ w_load_lock w' = w_load_lock w /\
    w_plugin_lock w' = w_plugin_lock w /\ w_reg w' = w_reg w /\
    w_calls w' = w_calls w.
Proof. split; [reflexivity|]. intros b w. cbn. repeat split. Qed.

(** C3 (as corrected): on a bound handle with no live plugin instance,
    starting from [load_ref_count_ = 0] and with at most [INT_MAX] loads (so
    the [int] count cannot overflow), each load adds 1 to the count and each
    unload sets it to [max 0 (count - 1)], in call order; the final count is
    at least [max 0 (#load - #unload)], and equals [#load - #unload]
    whenever every prefix of the sequence has at least as many loads as
    unloads (an unload at count 0 is clamped and later loads still count). *)
Theorem load_unload_count_clamped (ops : list Op) (w : World R)
    (Hpath : library_path_ (w_loader w) <> "")
    (Hplugin : plugin_ref_count_ (w_loader w) = 0)
    (Hzero : count w = 0) (Hbound : n_loads ops <= INT_MAX) :
  (forall n op, nth_error ops n = Some op ->
     count (run (firstn (S n) ops) w) =
     if is_load op then count (run (firstn n ops) w) + 1
     else Z.max 0 (count (run (firstn n ops) w) - 1)) /\
  Z.max 0 (n_loads ops - n_unloads ops) <= count (run ops w) /\
  ((forall n, n_unloads (firstn n ops) <= n_loads (firstn n ops)) ->
   count (run ops w) = n_loads ops - n_unloads ops).
Proof.
  split.
  - intros n op Hn. rewrite (run_firstn_S ops n op w Hn), step_count.
    unfold next_count. rewrite run_path, run_plugin, Hplugin.
    apply String.eqb_neq in Hpath. rewrite Hpath.
    destruct op; reflexivity.
  - destruct (run_count_bounds ops w Hpath Hplugin) as [Ha Hb]; [lia|].
    rewrite Hzero in Ha, Hb. split; [exact Ha|].
    intro Hpre. rewrite Hb; [reflexivity|]. intro n. specialize (Hpre n). lia.
Qed.

End Claims.

(** * Further properties of the code *)

Lemma list_ascii_of_string_append (a b : string) :
  list_ascii_of_string (a ++ b)%string = list_ascii_of_string a ++ list_ascii_of_string b.
Proof. induction a as [|x a IH]; cbn; [reflexivity|now rewrite IH]. Qed.

Lemma string_append_cancel (p a b q : string) :
  (p ++ a ++ q)%string = (p ++ b ++ q)%string -> a = b.
Proof.
  intro Heq. apply (f_equal list_ascii_of_string) in Heq.
  rewrite !list_ascii_of_string_append in Heq.
  apply app_inv_head in Heq. apply app_inv_tail in Heq.
  rewrite <- (string_of_list_ascii_of_string a), <- (string_of_list_ascii_of_string b).
  now rewrite Heq.
Qed.

Section Frame.
Context {R : Type} `{RegistryOps R}.

(** What one public call does to the rest of the state. *)
Lemma step_frame op (w : World R) :
  w_load_lock (step op w) = w_load_lock w /\
  w_unmanaged (step op w) = w_unmanaged w /\
  (w_plugin_lock w = false -> w_plugin_lock (step op w) = false) /\
  exists cs, w_calls (step op w) = w_calls w ++ cs /\
    Forall (call_about (library_path_ (w_loader w)) (self (w_loader w))) cs /\
    (length cs <= 1)%nat /\
    (0 < plugin_ref_count_ (w_loader w) -> Forall (fun c => call_is_release c = false) cs).
Proof.
  assert (Hu : let w' := snd (unloadLibrary w) in
    w_load_lock w' = w_load_lock w /\ w_unmanaged w' = w_unmanaged w /\
    (w_plugin_lock w = false -> w_plugin_lock w' = false) /\
    exists cs, w_calls w' = w_calls w ++ cs /\
      Forall (call_about (library_path_ (w_loader w)) (self (w_loader w))) cs /\
      (length cs <= 1)%nat /\
      (0 < plugin_ref_count_ (w_loader w) -> Forall (fun c => call_is_release c = false) cs)).
  { cbv zeta. rewrite unloadLibrary_eq.
    destruct (String.eqb _ "").
    - cbn. repeat split; auto. exists []. rewrite app_nil_r. repeat split; auto.
    - pose proof (unloadLibraryInternal_outcome true w) as Ho. unfold unload_outcome in Ho.
      destruct (unloadLibraryInternal true w) as [o w'].
      destruct Ho as (_ & Hd & Hpl & Hu & Hrest). cbn [snd].
      split; [exact Hd|]. split; [exact Hu|]. split; [intros _; exact Hpl|].
      destruct (Z.gtb (plugin_ref_count_ (w_loader w)) 0) eqn:Eg; cbn [orb] in Hrest.
      + destruct Hrest as (_ & Hc & _). exists []. rewrite app_nil_r.
        repeat split; auto.
      + destruct (negb _) eqn:Eq1.
        * destruct Hrest as (_ & Hc & _). exists []. rewrite app_nil_r.
          repeat split; auto.
        * destruct (impl_unloadLibrary _ _ _) as [r' oe].
          destruct Hrest as (_ & Hc & _).
          eexists; split; [exact Hc|]. split; [repeat constructor; right; reflexivity|].
          split; [cbn; lia|]. intro Hp. apply Z.gtb_lt in Hp. congruence. }
  destruct op; cbn [step].
  - pose proof (loadLibrary_outcome w) as Ho. unfold load_outcome in Ho.
    destruct (loadLibrary w) as [o w']. cbn [snd].
    destruct (String.eqb _ "").
    + destruct Ho as [_ ->]. repeat split; auto. exists []. rewrite app_nil_r.
      repeat split; auto.
    + destruct Ho as (_ & Hd & Hpl & Hu' & Hrest).
      destruct (impl_loadLibrary _ _ _) as [r' oe]. destruct Hrest as (_ & Hc & _).
      split; [exact Hd|]. split; [exact Hu'|]. split; [congruence|].
      eexists; split; [exact Hc|]. split; [repeat constructor; left; reflexivity|].
      split; [cbn; lia|]. intros _. repeat constructor.
  - exact Hu.
  - rewrite ClassLoader_dtor_state. exact Hu.
Qed.

Lemma run_frame ops (w : World R) :
  w_load_lock (run ops w) = w_load_lock w /\
  w_unmanaged (run ops w) = w_unmanaged w /\
  (w_plugin_lock w = false -> w_plugin_lock (run ops w) = false) /\
  exists cs, w_calls (run ops w) = w_calls w ++ cs /\
    Forall (call_about (library_path_ (w_loader w)) (self (w_loader w))) cs /\
    (length cs <= length ops)%nat /\
    (0 < plugin_ref_count_ (w_loader w) -> Forall (fun c => call_is_release c = false) cs).
Proof.
  revert w; induction ops as [|op ops IH]; intro w.
  - cbn. repeat split; auto. exists []. rewrite app_nil_r. repeat split; auto.
  - rewrite run_cons.
    destruct (step_frame op w) as (Hd & Hu & Hpl & cs1 & Hc1 & Ha1 & Hl1 & Hr1).
    destruct (IH (step op w)) as (Hd' & Hu' & Hpl' & cs2 & Hc2 & Ha2 & Hl2 & Hr2).
    rewrite step_path, step_plugin in *.
    assert (Hself : self (w_loader (step op w)) = self (w_loader w))
      by (rewrite step_loader; reflexivity).
    rewrite Hself in Ha2.
    split; [congruence|]. split; [congruence|]. split; [auto|].
    exists (cs1 ++ cs2). rewrite Hc2, Hc1, app_assoc. split; [reflexivity|].
    split; [apply Forall_app; auto|]. split; [rewrite length_app; cbn; lia|].
    intro Hp. apply Forall_app; auto.
Qed.

Lemma run_loader ops (w : World R) :
  w_loader (run ops w) = with_load_ref_count (count (run ops w)) (w_loader w).
Proof.
  revert w; induction ops as [|op ops IH]; intro w.
  - destruct w as [[s od p c pc] d pl u r cs]; reflexivity.
  - rewrite run_cons, IH, step_loader. reflexivity.
Qed.

Lemma ClassLoader_ctor_loader this path od (w0 : World R) :
  w_loader (snd (ClassLoader_ctor this path od w0)) =
  with_load_ref_count (count (snd (ClassLoader_ctor this path od w0)))
    (mkClassLoader this od path 0 0).
Proof.
  rewrite ClassLoader_ctor_eq. cbv zeta.
  destruct od; [reflexivity|].
  set (w1 := set_loader (mkClassLoader this false path 0 0) w0).
  pose proof (loadLibrary_outcome w1) as Ho. unfold load_outcome in Ho.
  destruct (loadLibrary w1) as [o w']. cbn [snd]. unfold count.
  destruct (String.eqb _ "").
  - destruct Ho as [_ ->]. reflexivity.
  - destruct Ho as (Hl & _). rewrite Hl. reflexivity.
Qed.

Lemma ClassLoader_ctor_frame this path od (w0 : World R) :
  w_unmanaged (snd (ClassLoader_ctor this path od w0)) = w_unmanaged w0.
Proof.
  rewrite ClassLoader_ctor_eq. cbv zeta.
  destruct od; [reflexivity|].
  set (w1 := set_loader (mkClassLoader this false path 0 0) w0).
  pose proof (loadLibrary_outcome w1) as Ho. unfold load_outcome in Ho.
  destruct (loadLibrary w1) as [o w']. cbn [snd].
  destruct (String.eqb _ "").
  - destruct Ho as [_ ->]. reflexivity.
  - destruct Ho as (_ & _ & _ & Hu & _). exact Hu.
Qed.

End Frame.

(** Distinct library names give distinct file names on every platform. *)
Theorem systemLibraryFormat_injective (poco_suffix : string) (pf : Platform)
    (name1 name2 : string)
    (Heq : systemLibraryFormat poco_suffix pf name1 = systemLibraryFormat poco_suffix pf name2) :
  name1 = name2.
Proof. unfold systemLibraryFormat in Heq. exact (string_append_cancel _ _ _ _ Heq). Qed.

(** A formatted library file name is never the empty path that marks a
    statically linked library, whatever the name and the platform. *)
Theorem systemLibraryFormat_not_static (poco_suffix : string) (pf : Platform)
    (library_name : string) :
  systemLibraryFormat poco_suffix pf library_name <> "".
Proof.
  unfold systemLibraryFormat.
  destruct pf; cbn; try discriminate.
  destruct library_name; discriminate.
Qed.

Section Extras.
Context {R : Type} `{RegistryOps R}.

(** After construction and any sequence of public calls, [getLibraryPath]
    and [isOnDemandLoadUnloadEnabled] return the constructor's arguments and
    change nothing; the handle's address is unchanged. *)
Theorem ctor_configuration_fixed (this : nat) (path : string) (od : bool)
    (w0 : World R) (ops : list Op) :
  let w := run ops (snd (ClassLoader_ctor this path od w0)) in
  getLibraryPath w = (Ret path, w) /\ isOnDemandLoadUnloadEnabled w = (Ret od, w) /\
  self (w_loader w) = this.
Proof.
  cbv zeta. unfold getLibraryPath, isOnDemandLoadUnloadEnabled, bind, get_loader, ret.
  rewrite run_loader, ClassLoader_ctor_loader. repeat split.
Qed.

(** The handle never changes [plugin_ref_count_]: it is 0 after construction
    and stays 0 under any sequence of load, unload and destructor calls. *)
Theorem plugin_ref_count_untouched (this : nat) (path : string) (od : bool)
    (w0 : World R) (ops : list Op) :
  plugin_ref_count_ (w_loader (run ops (snd (ClassLoader_ctor this path od w0)))) = 0.
Proof. rewrite run_plugin, ClassLoader_ctor_loader. reflexivity. Qed.

(** [loadLibrary] followed by [unloadLibrary] on a bound handle with no live
    plugin instance restores [load_ref_count_]; the registry sees one load,
    and one unload exactly when the count started at 0. *)
Theorem load_then_unload_roundtrip (w : World R)
    (Hpath : library_path_ (w_loader w) <> "")
    (Hplugin : plugin_ref_count_ (w_loader w) = 0) (Hc : 0 <= count w) :
  let p := library_path_ (w_loader w) in
  let s := self (w_loader w) in
  let w2 := step OpUnload (step OpLoad w) in
  count w2 = count w /\
  w_calls w2 = w_calls w ++ [CallLoadLibrary p s] ++
    (if Z.eqb (count w) 0 then [CallUnloadLibrary p s] else []).
Proof.
  cbv zeta. cbn [step].
  pose proof (loadLibrary_outcome w) as Ho. unfold load_outcome in Ho.
  destruct (loadLibrary w) as [o1 w1]. cbn [snd].
  apply String.eqb_neq in Hpath. rewrite Hpath in Ho.
  destruct Ho as (Hl1 & _ & _ & _ & Hrest1).
  destruct (impl_loadLibrary _ _ _) as [r1 oe1]. destruct Hrest1 as (_ & Hc1 & _).
  rewrite unloadLibrary_eq, Hl1. cbn [with_load_ref_count library_path_]. rewrite Hpath.
  pose proof (unloadLibraryInternal_outcome true w1) as Ho. unfold unload_outcome in Ho.
  destruct (unloadLibraryInternal true w1) as [o2 w2]. cbn [snd].
  rewrite Hl1 in Ho. cbn [with_load_ref_count load_ref_count_ plugin_ref_count_
    library_path_ self] in Ho. rewrite Hplugin in Ho. cbn [Z.gtb Z.compare orb] in Ho.
  destruct Ho as (Hl2 & _ & _ & _ & Hrest2).
  unfold count in *. rewrite Hl2. cbn [with_load_ref_count load_ref_count_].
  split; [lia|].
  destruct (Z.eqb (load_ref_count_ (w_loader w) + 1) 1) eqn:E1; cbn [negb] in Hrest2.
  - destruct (impl_unloadLibrary _ _ _) as [r2 oe2]. destruct Hrest2 as (_ & Hc2 & _).
    assert (E0 : Z.eqb (load_ref_count_ (w_loader w)) 0 = true)
      by (apply Z.eqb_eq; apply Z.eqb_eq in E1; lia).
    rewrite E0, Hc2, Hc1, <- app_assoc. reflexivity.
  - destruct Hrest2 as (_ & Hc2 & _).
    assert (E0 : Z.eqb (load_ref_count_ (w_loader w)) 0 = false)
      by (apply Z.eqb_neq; apply Z.eqb_neq in E1; lia).
    rewrite E0, Hc2, Hc1, app_nil_r. reflexivity.
Qed.

(** The destructor unloads once only: with [load_ref_count_ >= 2] and no live
    plugin instance, it leaves the count at [load_ref_count_ - 1] and makes no
    registry call, so the library stays loaded on behalf of the destroyed
    handle. *)
Theorem dtor_single_unload_keeps_library (w : World R)
    (Hpath : library_path_ (w_loader w) <> "")
    (Hplugin : plugin_ref_count_ (w_loader w) = 0) (Hc : 2 <= count w) :
  let '(o, w') := ClassLoader_dtor w in
  o = Ret tt /\ count w' = count w - 1 /\
  w_reg w' = w_reg w /\ w_calls w' = w_calls w.
Proof.
  unfold ClassLoader_dtor, bind, ret. rewrite unloadLibrary_eq.
  apply String.eqb_neq in Hpath. rewrite Hpath.
  pose proof (unloadLibraryInternal_outcome true w) as Ho. unfold unload_outcome in Ho.
  destruct (unloadLibraryInternal true w) as [o w'].
  unfold count in *. rewrite Hplugin in Ho. cbn [Z.gtb Z.compare orb] in Ho.
  assert (E1 : Z.eqb (load_ref_count_ (w_loader w)) 1 = false) by (apply Z.eqb_neq; lia).
  rewrite E1 in Ho. cbn [negb] in Ho.
  destruct Ho as (Hl & _ & _ & _ & Hr & Hcs & ->). rewrite Hl.
  cbn [with_load_ref_count load_ref_count_]. repeat split; auto. lia.
Qed.

(** Starting with no lock held, no sequence of public calls (exceptions
    included) leaves [load_ref_count_mutex_] or [plugin_ref_count_mutex_] held. *)
Theorem run_leaves_no_lock_held (ops : list Op) (w : World R)
    (Hload : w_load_lock w = 0%nat) (Hplugin : w_plugin_lock w = false) :
  w_load_lock (run ops w) = 0%nat /\ w_plugin_lock (run ops w) = false.
Proof.
  destruct (run_frame ops w) as (Hd & _ & Hpl & _). split; [congruence|auto].
Qed.

(** Construction and any sequence of load, unload and destructor calls leave
    [has_unmananged_instance_been_created_] as it was. *)
Theorem handle_ops_keep_unmanaged_flag (this : nat) (path : string) (od : bool)
    (w0 : World R) (ops : list Op) :
  w_unmanaged (run ops (snd (ClassLoader_ctor this path od w0))) = w_unmanaged w0.
Proof.
  destruct (run_frame ops (snd (ClassLoader_ctor this path od w0))) as (_ & Hu & _).
  rewrite Hu. apply ClassLoader_ctor_frame.
Qed.

(** Every registry call a handle makes names its own path and address, and
    each public call makes at most one. *)
Theorem run_calls_about_own_path (ops : list Op) (w : World R) :
  (exists cs, w_calls (run ops w) = w_calls w ++ cs /\
    Forall (call_about (library_path_ (w_loader w)) (self (w_loader w))) cs /\
    (length cs <= length ops)%nat) /\
  (forall n op, nth_error ops n = Some op ->
   exists cs, w_calls (run (firstn (S n) ops) w) = w_calls (run (firstn n ops) w) ++ cs /\
     (length cs <= 1)%nat /\
     Forall (call_about (library_path_ (w_loader w)) (self (w_loader w))) cs).
Proof.
  split.
  - destruct (run_frame ops w) as (_ & _ & _ & cs & Hc & Ha & Hl & _).
    exists cs. auto.
  - intros n op Hn. rewrite (run_firstn_S ops n op w Hn).
    destruct (step_frame op (run (firstn n ops) w)) as (_ & _ & _ & cs & Hc & Ha & Hl & _).
    assert (Hs : self (w_loader (run (firstn n ops) w)) = self (w_loader w))
      by (rewrite run_loader; reflexivity).
    rewrite run_path, Hs in Ha.
    exists cs. auto.
Qed.


(** The load count never exceeds its start value plus the number of loads. *)
Theorem count_bounded_by_loads (ops : list Op) (w : World R) (Hc : 0 <= count w) :
  count (run ops w) <= count w + n_loads ops.
Proof. exact (run_count_le_loads ops w Hc). Qed.

(** When [unloadLibrary] returns normally, its result is the handle's
    [load_ref_count_] afterwards for a bound path, and 0 with nothing changed
    for the empty path. *)
Theorem unloadLibrary_returns_count (w w' : World R) (n : Z)
    (Hret : unloadLibrary w = (Ret n, w')) :
  if String.eqb (library_path_ (w_loader w)) "" then n = 0 /\ w' = w
  else n = count w'.
Proof.
  rewrite unloadLibrary_eq in Hret.
  destruct (String.eqb _ ""); [injection Hret; auto|].
  pose proof (unloadLibraryInternal_outcome true w) as Ho. unfold unload_outcome in Ho.
  rewrite Hret in Ho. destruct Ho as (Hl & _ & _ & _ & Hrest).
  unfold count. rewrite Hl. cbn [with_load_ref_count load_ref_count_].
  destruct (Z.gtb (plugin_ref_count_ (w_loader w)) 0) eqn:Eg;
    destruct (Z.eqb (load_ref_count_ (w_loader w)) 1) eqn:E1; cbn [orb negb] in Hrest;
    try (destruct Hrest as (_ & _ & Hn); injection Hn as ->; reflexivity).
  destruct (impl_unloadLibrary _ _ _) as [r' [e|]]; destruct Hrest as (_ & _ & Hn);
    [discriminate|]. injection Hn as ->.
  apply Z.eqb_eq in E1. rewrite E1. reflexivity.
Qed.

(** When the registry's load raises on a bound handle (whose count is below
    [INT_MAX]), [loadLibrary] raises that same exception after releasing
    [load_ref_count_mutex_]; the count has already been incremented and the
    call is logged. *)
Theorem loadLibrary_error_propagates (w : World R) (e : Error)
    (Hpath : library_path_ (w_loader w) <> "") (Hbound : count w < INT_MAX)
    (Hreg : snd (impl_loadLibrary (library_path_ (w_loader w)) (self (w_loader w)) (w_reg w))
            = Some e) :
  let '(o, w') := loadLibrary w in
  o = Raise e /\ count w' = count w + 1 /\ w_load_lock w' = w_load_lock w /\
  w_calls w' = w_calls w ++ [CallLoadLibrary (library_path_ (w_loader w)) (self (w_loader w))].
Proof.
  pose proof (loadLibrary_outcome w) as Ho. unfold load_outcome in Ho.
  destruct (loadLibrary w) as [o w'].
  apply String.eqb_neq in Hpath. rewrite Hpath in Ho.
  destruct Ho as (Hl & Hd & _ & _ & Hrest).
  destruct (impl_loadLibrary _ _ _) as [r' oe]. cbn [snd] in Hreg. subst oe.
  destruct Hrest as (_ & Hc & Ho).
  split; [exact Ho|]. split; [unfold count; rewrite Hl; reflexivity|]. auto.
Qed.

(** On every exit of [unloadLibraryInternal], [load_ref_count_mutex_] is back
    to the caller's hold; [plugin_ref_count_mutex_] is released when the call
    was asked to lock it and left as the caller holds it otherwise. *)
Theorem unloadLibraryInternal_lock_discipline (b : bool) (w : World R) :
  w_load_lock (snd (unloadLibraryInternal b w)) = w_load_lock w /\
  w_plugin_lock (snd (unloadLibraryInternal b w)) =
    (if b then false else w_plugin_lock w).
Proof.
  pose proof (unloadLibraryInternal_outcome b w) as Ho. unfold unload_outcome in Ho.
  destruct (unloadLibraryInternal b w) as [o w']. cbn [snd].
  destruct Ho as (_ & Hd & Hpl & _). auto.
Qed.

End Extras.

(** * Concrete runs *)

Import LibraryRegistry.

Ltac eval_hyp :=
  vm_compute; first [reflexivity | discriminate | (let Hx := fresh in intro Hx; discriminate Hx)].

(** The scenario of the spec (section 8) with one handle: the primitive opens
    ["libfoo"] once on load and closes it once when the last load is undone. *)
Example libfoo_load_unload_scenario :
  prim_log (w_reg (run [OpLoad; OpLoad; OpUnload; OpUnload; OpUnload] fresh_world))
  = [PrimOpen "libfoo"; PrimClose "libfoo"].
Proof. reflexivity. Qed.

Example busy_unload_keeps_library :
  unloadLibrary busy_world = (Ret 2, busy_world).
Proof. reflexivity. Qed.

(** C3: the count after [unload(); load()] on a fresh on-demand handle is 1,
    while [max 0 (#load - #unload)] is 0. *)
Lemma load_unload_count_not_max_formula :
  count (run [OpUnload; OpLoad] fresh_world) <>
  Z.max 0 (n_loads [OpUnload; OpLoad] - n_unloads [OpUnload; OpLoad]).
Proof. vm_compute. discriminate. Qed.

Lemma load_ref_count_never_negative_unit_steps_witness :
  0 <= count fresh_world /\
  count fresh_world + n_loads [OpUnload; OpLoad; OpUnload; OpUnload] <= INT_MAX /\
  forall n, 0 <= count (run (firstn n [OpUnload; OpLoad; OpUnload; OpUnload]) fresh_world)
              <= INT_MAX.
Proof.
  split; [eval_hyp|]. split; [eval_hyp|].
  exact (proj1 (load_ref_count_never_negative_unit_steps
                  [OpUnload; OpLoad; OpUnload; OpUnload] fresh_world
                  ltac:(eval_hyp) ltac:(eval_hyp))).
Defined.

Lemma unload_refused_while_plugins_alive_witness :
  0 < plugin_ref_count_ (w_loader busy_world) /\
  library_path_ (w_loader busy_world) <> "" /\
  let '(o, w') := unloadLibrary busy_world in
  o = Ret (count busy_world) /\ count w' = count busy_world /\
  w_reg w' = w_reg busy_world /\ w_calls w' = w_calls busy_world.
Proof.
  split; [eval_hyp|]. split; [eval_hyp|].
  exact (unload_refused_while_plugins_alive busy_world ltac:(eval_hyp) ltac:(eval_hyp)).
Defined.

Lemma load_unload_count_clamped_witness :
  library_path_ (w_loader fresh_world) <> "" /\
  plugin_ref_count_ (w_loader fresh_world) = 0 /\ count fresh_world = 0 /\
  n_loads [OpLoad; OpUnload; OpUnload] <= INT_MAX /\
  Z.max 0 (n_loads [OpLoad; OpUnload; OpUnload] - n_unloads [OpLoad; OpUnload; OpUnload])
    <= count (run [OpLoad; OpUnload; OpUnload] fresh_world).
Proof.
  split; [eval_hyp|]. split; [eval_hyp|]. split; [eval_hyp|]. split; [eval_hyp|].
  exact (proj1 (proj2 (load_unload_count_clamped [OpLoad; OpUnload; OpUnload] fresh_world
                  ltac:(eval_hyp) ltac:(eval_hyp) ltac:(eval_hyp) ltac:(eval_hyp)))).
Defined.

Lemma empty_path_never_touches_registry_witness :
  library_path_ (w_loader static_world) = "" /\
  loadLibrary static_world = (Ret tt, static_world) /\
  unloadLibrary static_world = (Ret 0, static_world) /\
  ClassLoader_dtor static_world = (Ret tt, static_world) /\
  (forall (this : nat) (od : bool) (w0 : World Registry),
     let '(o, w') := ClassLoader_ctor this "" od w0 in
     o = Ret tt /\ count w' = 0 /\ w_reg w' = w_reg w0 /\ w_calls w' = w_calls w0).
Proof.
  split; [eval_hyp|].
  exact (empty_path_never_touches_registry static_world ltac:(eval_hyp)).
Defined.

Lemma unload_internal_decrements_and_releases_at_zero_witness :
  plugin_ref_count_ (w_loader loaded_world) = 0 /\
  library_path_ (w_loader loaded_world) <> "" /\
  let c := count loaded_world in
  let '(o, w') := unloadLibraryInternal true loaded_world in
  count w' = Z.max 0 (c - 1) /\
  w_calls w' = w_calls loaded_world ++
    (if Z.eqb (c - 1) 0
     then [CallUnloadLibrary (library_path_ (w_loader loaded_world))
             (self (w_loader loaded_world))]
     else []) /\
  (c - 1 <> 0 -> w_reg w' = w_reg loaded_world /\ o = Ret (Z.max 0 (c - 1))).
Proof.
  split; [eval_hyp|]. split; [eval_hyp|].
  exact (unload_internal_decrements_and_releases_at_zero true loaded_world
           ltac:(eval_hyp) ltac:(eval_hyp)).
Defined.

Lemma ctor_loads_unless_on_demand_witness :
  "libfoo" <> "" /\
  let '(o, w') := ClassLoader_ctor 1 "libfoo" false static_world in
  count w' = 1 /\ plugin_ref_count_ (w_loader w') = 0 /\
  w_calls w' = w_calls static_world ++ [CallLoadLibrary "libfoo" 1] /\
  w_reg w' = fst (impl_loadLibrary "libfoo" 1 (w_reg static_world)) /\
  o = match snd (impl_loadLibrary "libfoo" 1 (w_reg static_world)) with
      | None => Ret tt | Some e => Raise e end.
Proof.
  split; [eval_hyp|].
  exact (proj1 (ctor_loads_unless_on_demand 1 "libfoo" static_world ltac:(eval_hyp))).
Defined.

Lemma unload_internal_error_releases_locks_witness :
  plugin_ref_count_ (w_loader failing_close_world) <= 0 /\
  load_ref_count_ (w_loader failing_close_world) = 1 /\
  fst (unloadLibraryInternal true failing_close_world)
    = Raise (LibraryUnloadException "libfoo").
Proof.
  split; [eval_hyp|]. split; [eval_hyp|].
  pose proof (unload_internal_error_releases_locks true failing_close_world) as H.
  cbv zeta in H.
  destruct (unloadLibraryInternal true failing_close_world) as [o w'].
  cbn [fst].
  refine (proj1 (proj1 H _ _ (LibraryUnloadException "libfoo") _)); eval_hyp.
Defined.

Lemma unload_at_zero_is_noop_witness :
  library_path_ (w_loader fresh_world) <> "" /\ count fresh_world = 0 /\
  plugin_ref_count_ (w_loader fresh_world) = 0 /\
  let '(o, w') := unloadLibrary fresh_world in
  o = Ret 0 /\ count w' = 0 /\ w_reg w' = w_reg fresh_world /\
  w_calls w' = w_calls fresh_world.
Proof.
  split; [eval_hyp|]. split; [eval_hyp|]. split; [eval_hyp|].
  exact (unload_at_zero_is_noop fresh_world ltac:(eval_hyp) ltac:(eval_hyp) ltac:(eval_hyp)).
Defined.

Lemma systemLibraryFormat_injective_witness :
  systemLibraryFormat "" Linux "foo" = systemLibraryFormat "" Linux "foo" /\ "foo" = "foo".
Proof.
  split; [reflexivity|].
  exact (systemLibraryFormat_injective "" Linux "foo" "foo" eq_refl).
Defined.

Lemma load_then_unload_roundtrip_witness :
  library_path_ (w_loader fresh_world) <> "" /\
  plugin_ref_count_ (w_loader fresh_world) = 0 /\ 0 <= count fresh_world /\
  count (step OpUnload (step OpLoad fresh_world)) = count fresh_world.
Proof.
  split; [eval_hyp|]. split; [eval_hyp|]. split; [eval_hyp|].
  exact (proj1 (load_then_unload_roundtrip fresh_world
                  ltac:(eval_hyp) ltac:(eval_hyp) ltac:(eval_hyp))).
Defined.

Lemma dtor_single_unload_keeps_library_witness :
  library_path_ (w_loader twice_loaded_world) <> "" /\
  plugin_ref_count_ (w_loader twice_loaded_world) = 0 /\ 2 <= count twice_loaded_world /\
  let '(o, w') := ClassLoader_dtor twice_loaded_world in
  o = Ret tt /\ count w' = count twice_loaded_world - 1 /\
  w_reg w' = w_reg twice_loaded_world /\ w_calls w' = w_calls twice_loaded_world.
Proof.
  split; [eval_hyp|]. split; [eval_hyp|]. split; [eval_hyp|].
  exact (dtor_single_unload_keeps_library twice_loaded_world
           ltac:(eval_hyp) ltac:(eval_hyp) ltac:(eval_hyp)).
Defined.

Lemma run_leaves_no_lock_held_witness :
  w_load_lock fresh_world = 0%nat /\ w_plugin_lock fresh_world = false /\
  w_load_lock (run [OpLoad; OpUnload; OpDestroy] fresh_world) = 0%nat /\
  w_plugin_lock (run [OpLoad; OpUnload; OpDestroy] fresh_world) = false.
Proof.
  split; [eval_hyp|]. split; [eval_hyp|].
  exact (run_leaves_no_lock_held [OpLoad; OpUnload; OpDestroy] fresh_world
           ltac:(eval_hyp) ltac:(eval_hyp)).
Defined.


Lemma count_bounded_by_loads_witness :
  0 <= count loaded_world /\
  count (run [OpLoad; OpUnload; OpLoad] loaded_world)
    <= count loaded_world + n_loads [OpLoad; OpUnload; OpLoad].
Proof.
  split; [eval_hyp|].
  exact (count_bounded_by_loads [OpLoad; OpUnload; OpLoad] loaded_world ltac:(eval_hyp)).
Defined.

Lemma unloadLibrary_returns_count_witness :
  unloadLibrary twice_loaded_world = (Ret 1, snd (unloadLibrary twice_loaded_world)) /\
  (if String.eqb (library_path_ (w_loader twice_loaded_world)) ""
   then 1 = 0 /\ snd (unloadLibrary twice_loaded_world) = twice_loaded_world
   else 1 = count (snd (unloadLibrary twice_loaded_world))).
Proof.
  split; [vm_compute; reflexivity|].
  refine (unloadLibrary_returns_count twice_loaded_world
            (snd (unloadLibrary twice_loaded_world)) 1 _).
  vm_compute. reflexivity.
Defined.

Lemma loadLibrary_error_propagates_witness :
  library_path_ (w_loader failing_open_world) <> "" /\
  count failing_open_world < INT_MAX /\
  fst (loadLibrary failing_open_world) = Raise (LibraryLoadException "libfoo").
Proof.
  split; [eval_hyp|]. split; [eval_hyp|].
  pose proof (loadLibrary_error_propagates failing_open_world
                (LibraryLoadException "libfoo")) as H.
  destruct (loadLibrary failing_open_world) as [o w'].
  cbn [fst].
  refine (proj1 (H _ _ _)); eval_hyp.
Defined.

Lemma run_calls_about_own_path_witness :
  nth_error [OpLoad; OpUnload] 0 = Some OpLoad /\
  exists cs, w_calls (run (firstn 1 [OpLoad; OpUnload]) fresh_world) =
               w_calls (run (firstn 0 [OpLoad; OpUnload]) fresh_world) ++ cs /\
    (length cs <= 1)%nat /\
    Forall (call_about (library_path_ (w_loader fresh_world)) (self (w_loader fresh_world))) cs.
Proof.
  split; [reflexivity|].
  exact (proj2 (run_calls_about_own_path [OpLoad; OpUnload] fresh_world) 0%nat OpLoad eq_refl).
Defined.
